(** Verification of the Gemini live-console hooks and components:
    [useLiveAPI] (src/hooks/use-live-api.ts), [useLiveAPIContext]
    (contexts/LiveAPIContext.tsx), [ControlTray] and [Altair]. *)

From Stdlib Require Import List String Ascii Bool Arith Lia ZArith.
From Stdlib Require Import Reals Lra.
Import ListNotations.
Open Scope string_scope.
Open Scope list_scope.

(* ------------------------------------------------------------------ *)
(** * Data: configuration, events, wire parts *)

Inductive Modality := TEXT | AUDIO.

Inductive Tool :=
| GoogleSearch
| FunctionDeclarations (names : list string).

(** [LiveConnectConfig] as the components fill it. *)
Record LiveConnectConfig := mkConfig {
  responseModalities : list Modality;
  voiceName : option string;
  systemInstruction : option string;
  tools : list Tool
}.

(** The object literal [{}] used as the hook's initial config. *)
Definition empty_config : LiveConnectConfig := mkConfig [] None None [].

(** A JavaScript value of type [LiveConnectConfig]: [None] is [undefined]
    (reachable only by an untyped caller); any object is truthy. *)
Definition js_config := option LiveConnectConfig.

Definition js_truthy_config (c : js_config) : bool :=
  match c with Some _ => true | None => false end.

Record Part := mkPart { mimeType : string; data : string }.

Record FunctionResponseOutput := mkOutput { success : bool }.

Record FunctionResponse := mkFunctionResponse {
  fr_output : FunctionResponseOutput;   (* response: { output: ... } *)
  fr_id : option string;
  fr_name : option string
}.

(** Event kinds of the client's [on]/[off] registry. *)
Inductive EventKind := KError | KOpen | KClose | KInterrupted | KAudio | KToolCall.

Definition EventKind_eqb (a b : EventKind) : bool :=
  match a, b with
  | KError, KError | KOpen, KOpen | KClose, KClose
  | KInterrupted, KInterrupted | KAudio, KAudio | KToolCall, KToolCall => true
  | _, _ => false
  end.

(** Events emitted by the client. *)
Inductive SessionEvent :=
| EvOpen
| EvClose
| EvError (detail : string)
| EvAudio (bytes : list Byte.byte)
| EvInterrupted.

Definition kind_of (e : SessionEvent) : EventKind :=
  match e with
  | EvOpen => KOpen
  | EvClose => KClose
  | EvError _ => KError
  | EvAudio _ => KAudio
  | EvInterrupted => KInterrupted
  end.

(** Frames put on the transport. *)
Inductive Frame :=
| FrHandshake (hid : nat) (model : string) (cfg : LiveConnectConfig)
| FrRealtimeInput (parts : list Part)
| FrToolResponse (responses : list FunctionResponse).

Inductive JsError :=
| ConfigError (msg : string)
| ConnectRejected
| TypeError (msg : string)
| ContextError (msg : string).

(** A small error monad for code that may throw. *)
Inductive result (A : Type) :=
| Ok (a : A)
| Throw (e : JsError).
Arguments Ok {A} a.
Arguments Throw {A} e.

Definition bind {A B} (m : result A) (k : A -> result B) : result B :=
  match m with Ok a => k a | Throw e => Throw e end.

Notation "x <- m ;; k" := (bind m (fun x => k))
  (at level 61, m at next level, right associativity).

(* ------------------------------------------------------------------ *)
(** * The live-session client *)

Inductive Status := Idle | Connecting | Open | Closed | Errored.

Definition is_active (s : Status) : bool :=
  match s with Connecting | Open => true | _ => false end.

Record Client := mkClient {
  status : Status;
  pending : list nat;          (* handshakes sent, not yet acknowledged *)
  next_hid : nat;
  frames : list Frame;         (* frames handed to the transport *)
  events : list SessionEvent   (* events emitted, oldest first *)
}.

Definition client_init : Client := mkClient Idle [] 0 [] [].

(** Modelled from the spec: [GenAILiveClient.disconnect] (lib/genai-live-client,
    not in the repository sources).  "idempotent; if not connected, no-op;
    otherwise closes the transport and transitions to Closed, emitting Close.
    Must not throw."  A connection that is Connecting or Open counts as
    connected (spec: "calling connect while already connecting/connected
    forces disconnect-then-reconnect"). *)
Definition client_disconnect (c : Client) : Client :=
  if is_active (status c)
  then mkClient Closed [] (next_hid c) (frames c) (events c ++ [EvClose])
  else c.

(** Modelled from the spec: [GenAILiveClient.connect(model, config)].
    Rejects if config is absent or a connection is already Open/Connecting;
    otherwise sends the handshake built from the config and goes to
    Connecting. *)
Definition client_connect (model : string) (cfg : js_config) (c : Client)
  : result Client :=
  match cfg with
  | None => Throw (ConfigError "config is absent")
  | Some k =>
      if is_active (status c) then Throw ConnectRejected
      else Ok (mkClient Connecting [next_hid c] (S (next_hid c))
                 (frames c ++ [FrHandshake (next_hid c) model k]) (events c))
  end.

(** Modelled from the spec: the transport's open acknowledgment for handshake
    [h].  Only a handshake still outstanding moves Connecting to Open and
    emits Open; an acknowledgment of a cancelled handshake is ignored. *)
Definition client_ack (h : nat) (c : Client) : Client :=
  match status c with
  | Connecting =>
      if existsb (Nat.eqb h) (pending c)
      then mkClient Open [] (next_hid c) (frames c) (events c ++ [EvOpen])
      else c
  | _ => c
  end.

Definition client_acks (hs : list nat) (c : Client) : Client :=
  fold_left (fun c h => client_ack h c) hs c.

(** Modelled from the spec: [sendRealtimeInput(parts)].  Frames and transmits
    while Open; dropped otherwise (no queueing). *)
Definition client_sendRealtimeInput (parts : list Part) (c : Client) : Client :=
  match status c with
  | Open => mkClient Open (pending c) (next_hid c)
              (frames c ++ [FrRealtimeInput parts]) (events c)
  | _ => c
  end.

Fixpoint count_open (es : list SessionEvent) : nat :=
  match es with
  | [] => 0
  | EvOpen :: es' => S (count_open es')
  | _ :: es' => count_open es'
  end.

Fixpoint count_handshakes (fs : list Frame) : nat :=
  match fs with
  | [] => 0
  | FrHandshake _ _ _ :: fs' => S (count_handshakes fs')
  | _ :: fs' => count_handshakes fs'
  end.

(* ------------------------------------------------------------------ *)
(** * The [useLiveAPI] hook *)

(** Calls made on the AudioStreamer. *)
Inductive StreamerCall :=
| SStop
| SAddPCM16 (bytes : list Byte.byte).

(** The handlers the hook's effect registers on the client. *)
Inductive Handler := HOnError | HOnOpen | HOnClose | HStopAudioStreamer | HOnAudio.

(** Calls the hook makes on the client, in order. *)
Inductive ClientCall :=
| CDisconnect
| CConnect (model : string) (cfg : js_config).

Record Hook := mkHook {
  client : Client;
  listeners : list (EventKind * Handler);
  model : string;
  config : js_config;
  connected : bool;
  streamer : option (list StreamerCall);   (* audioStreamerRef.current *)
  calls : list ClientCall;
  console_errors : list string
}.

Definition set_client (c : Client) (s : Hook) : Hook :=
  mkHook c (listeners s) (model s) (config s) (connected s) (streamer s)
    (calls s) (console_errors s).
Definition set_listeners (l : list (EventKind * Handler)) (s : Hook) : Hook :=
  mkHook (client s) l (model s) (config s) (connected s) (streamer s)
    (calls s) (console_errors s).
Definition set_config_field (k : js_config) (s : Hook) : Hook :=
  mkHook (client s) (listeners s) (model s) k (connected s) (streamer s)
    (calls s) (console_errors s).
Definition set_connected (b : bool) (s : Hook) : Hook :=
  mkHook (client s) (listeners s) (model s) (config s) b (streamer s)
    (calls s) (console_errors s).
Definition set_streamer (st : option (list StreamerCall)) (s : Hook) : Hook :=
  mkHook (client s) (listeners s) (model s) (config s) (connected s) st
    (calls s) (console_errors s).
Definition add_calls (cs : list ClientCall) (s : Hook) : Hook :=
  mkHook (client s) (listeners s) (model s) (config s) (connected s) (streamer s)
    (calls s ++ cs) (console_errors s).
Definition add_console_error (m : string) (s : Hook) : Hook :=
  mkHook (client s) (listeners s) (model s) (config s) (connected s) (streamer s)
    (calls s) (console_errors s ++ [m]).

(** First render: [useState("models/gemini-2.0-flash-exp")], [useState({})],
    [useState(false)], [useRef(null)]. *)
Definition hook_init : Hook :=
  mkHook client_init [] "models/gemini-2.0-flash-exp" (Some empty_config)
    false None [] [].

(** [new Uint8Array(data)]: a view over the same bytes of the ArrayBuffer. *)
Definition Uint8Array_of (buf : list Byte.byte) : list Byte.byte := buf.

(** [audioStreamerRef.current?.f(...)]: a call only when the ref is set. *)
Definition streamer_call (sc : StreamerCall) (s : Hook) : Hook :=
  match streamer s with
  | Some l => set_streamer (Some (l ++ [sc])) s
  | None => s
  end.

(** The handlers defined in the [[client]] effect. *)
Definition run_handler (h : Handler) (e : SessionEvent) (s : Hook) : Hook :=
  match h with
  | HOnOpen => set_connected true s
  | HOnClose => set_connected false s
  | HOnError => add_console_error "error" s
  | HStopAudioStreamer => streamer_call SStop s
  | HOnAudio =>
      match e with
      | EvAudio data => streamer_call (SAddPCM16 (Uint8Array_of data)) s
      | _ => s
      end
  end.

(** The client's emitter: every listener of the event's kind, in
    registration order. *)
Definition deliver (e : SessionEvent) (s : Hook) : Hook :=
  fold_left (fun s kh => if EventKind_eqb (fst kh) (kind_of e)
                         then run_handler (snd kh) e s else s)
    (listeners s) s.

(** The [[client]] effect: [client.on("error", onError).on("open", onOpen)
    .on("close", onClose).on("interrupted", stopAudioStreamer)
    .on("audio", onAudio)]. *)
Definition registered : list (EventKind * Handler) :=
  [(KError, HOnError); (KOpen, HOnOpen); (KClose, HOnClose);
   (KInterrupted, HStopAudioStreamer); (KAudio, HOnAudio)].

Definition hook_mount (s : Hook) : Hook :=
  set_listeners (listeners s ++ registered) s.

(** The first effect's promise resolving: [new AudioStreamer(audioCtx)]. *)
Definition hook_streamer_ready (s : Hook) : Hook :=
  match streamer s with
  | None => set_streamer (Some []) s
  | Some _ => s
  end.

(** [connect]: throw on a falsy config, else [client.disconnect()] then
    [await client.connect(model, config)].  The final state comes with the
    outcome, since effects made before a throw remain. *)
Definition hook_connect (s : Hook) : Hook * result unit :=
  if negb (js_truthy_config (config s))
  then (s, Throw (ConfigError "config has not been set"))
  else
    let s1 := add_calls [CDisconnect] (set_client (client_disconnect (client s)) s) in
    let s2 := add_calls [CConnect (model s1) (config s1)] s1 in
    match client_connect (model s1) (config s1) (client s1) with
    | Ok c2 => (set_client c2 s2, Ok tt)
    | Throw e => (s2, Throw e)
    end.

(** [disconnect]: [client.disconnect(); setConnected(false)]. *)
Definition hook_disconnect (s : Hook) : Hook * result unit :=
  (set_connected false
     (add_calls [CDisconnect] (set_client (client_disconnect (client s)) s)),
   Ok tt).

(** Running a hook operation [n] times in a row, stopping at a throw. *)
Fixpoint repeat_op (n : nat) (op : Hook -> Hook * result unit) (s : Hook)
  : Hook * result unit :=
  match n with
  | O => (s, Ok tt)
  | S n' =>
      match op s with
      | (s', Ok _) => repeat_op n' op s'
      | (s', Throw e) => (s', Throw e)
      end
  end.

(** [setConfig] from [useState]: replaces the stored config. *)
Definition hook_setConfig (k : LiveConnectConfig) (s : Hook) : Hook :=
  set_config_field (Some k) s.

(* ------------------------------------------------------------------ *)
(** * [useLiveAPIContext] (contexts/LiveAPIContext.tsx) *)

(** The value of [UseLiveAPIResults]: the hook's state. *)
Definition UseLiveAPIResults := Hook.

(** [useContext(LiveAPIContext)] is [undefined] outside a provider; the
    provided value is an object, hence truthy. *)
Definition useLiveAPIContext (context : option UseLiveAPIResults)
  : result UseLiveAPIResults :=
  match context with
  | None => Throw (ContextError "useLiveAPIContext must be used within a LiveAPIProvider")
  | Some ctx => Ok ctx
  end.

(* ------------------------------------------------------------------ *)
(** * [ControlTray] (components/control-tray/ControlTray.tsx) *)

(** [onData]: the recorder's base64 chunk, sent as one PCM part. *)
Definition onData (base64 : string) : list Part :=
  [mkPart "audio/pcm;rate=16000" base64].

(** [String.prototype.indexOf] for a one-character needle. *)
Fixpoint index_of_char (c : ascii) (s : string) : option nat :=
  match s with
  | EmptyString => None
  | String a s' =>
      if Ascii.eqb a c then Some 0
      else match index_of_char c s' with Some n => Some (S n) | None => None end
  end.

Definition js_indexOf (s : string) (c : ascii) : Z :=
  match index_of_char c s with Some n => Z.of_nat n | None => (-1)%Z end.

(** [s.slice(start, Infinity)]. *)
Definition js_slice_to_end (s : string) (start : Z) : string :=
  let len := Z.of_nat (String.length s) in
  let from := if (start <? 0)%Z then Z.max (len + start) 0 else Z.min start len in
  substring (Z.to_nat from) (String.length s - Z.to_nat from) s.

(** Browser API: [canvas.toDataURL("image/jpeg", 1.0)] is the data URL
    "data:image/jpeg;base64," followed by the base64 JPEG encoding of the
    canvas pixels, given here as [jpeg_base64]. *)
Definition toDataURL_jpeg (jpeg_base64 : string) : string :=
  "data:image/jpeg;base64," ++ jpeg_base64.

(** What [sendVideoFrame] sees: the video's intrinsic size (if the video
    element exists), whether the canvas exists, the canvas's JPEG encoding,
    and [connected]. *)
Record FrameTick := mkFrameTick {
  video : option (nat * nat);     (* videoWidth, videoHeight *)
  has_canvas : bool;
  jpeg_base64 : string;
  tick_connected : bool
}.

(** [canvas.width = video.videoWidth * 0.25]: the canvas size is an unsigned
    integer, so the assigned value is truncated. *)
Definition canvas_dim (d : nat) : nat := d / 4.

(** [sendVideoFrame]: the parts passed to [sendRealtimeInput] and whether the
    next capture is scheduled. *)
Definition sendVideoFrame (t : FrameTick) : list (list Part) * bool :=
  match video t, has_canvas t with
  | Some (w, h), true =>
      let cw := canvas_dim w in
      let ch := canvas_dim h in
      let sent :=
        if Nat.ltb 0 (cw + ch) then
          let base64 := toDataURL_jpeg (jpeg_base64 t) in
          let d := js_slice_to_end base64 (js_indexOf base64 ","%char + 1)%Z in
          [[mkPart "image/jpeg" d]]
        else [] in
      (sent, tick_connected t)
  | _, _ => ([], false)
  end.

(** The two places of the application that call [client.sendRealtimeInput]. *)
Inductive AppInput :=
| MicData (base64 : string)
| VideoTick (t : FrameTick).

Definition realtime_calls (i : AppInput) : list (list Part) :=
  match i with
  | MicData b => [onData b]
  | VideoTick t => fst (sendVideoFrame t)
  end.

(** The document's inline style properties ([document.documentElement.style])
    and ControlTray's local state. *)
Record TrayState := mkTray {
  inVolume : R;
  document_style : list (string * R)   (* property, value in px *)
}.

Fixpoint style_set (k : string) (v : R) (st : list (string * R)) : list (string * R) :=
  match st with
  | [] => [(k, v)]
  | (k', v') :: st' => if String.eqb k k' then (k, v) :: st' else (k', v') :: style_set k v st'
  end.

Fixpoint style_get (k : string) (st : list (string * R)) : option R :=
  match st with
  | [] => None
  | (k', v') :: st' => if String.eqb k k' then Some v' else style_get k st'
  end.

(** [`${Math.max(5, Math.min(inVolume * 200, 8))}px`]. *)
Definition volume_px (v : R) : R := Rmax 5 (Rmin (v * 200) 8).

(** The [[inVolume]] effect. *)
Definition volume_effect (s : TrayState) : TrayState :=
  mkTray (inVolume s) (style_set "--volume" (volume_px (inVolume s)) (document_style s)).

(* ------------------------------------------------------------------ *)
(** * [Altair] (components/altair/Altair.tsx) *)

Record FunctionCall := mkFunctionCall {
  fc_id : option string;
  fc_name : option string;
  fc_args : option (list (string * string))   (* args?: Record<string, ...> *)
}.

Record LiveServerToolCall := mkToolCall {
  functionCalls : option (list FunctionCall)
}.

Definition declaration_name : string := "render_altair".

(** A [setTimeout] whose callback is
    [client.sendToolResponse({functionResponses})]. *)
Record Timer := mkTimer {
  delay_ms : nat;
  functionResponses : list FunctionResponse
}.

Fixpoint js_prop (k : string) (o : list (string * string)) : option string :=
  match o with
  | [] => None
  | (k', v) :: o' => if String.eqb k k' then Some v else js_prop k o'
  end.

Definition name_is (n : string) (fc : FunctionCall) : bool :=
  match fc_name fc with Some m => String.eqb m n | None => false end.

Definition to_response (fc : FunctionCall) : FunctionResponse :=
  mkFunctionResponse (mkOutput true) (fc_id fc) (fc_name fc).

(** Effects of [onToolCall]: the argument passed to [setJSONString] (if it is
    called) and the timers it starts. *)
Record ToolCallEffects := mkEffects {
  json_update : option (option string);
  timers : list Timer
}.

Definition onToolCall (toolCall : LiveServerToolCall) : result ToolCallEffects :=
  match functionCalls toolCall with
  | None => Ok (mkEffects None [])
  | Some fcs =>
      upd <- match find (name_is declaration_name) fcs with
             | Some fc =>
                 match fc_args fc with
                 | Some args => Ok (Some (js_prop "json_graph" args))
                 | None => Throw (TypeError "Cannot read properties of undefined (reading 'json_graph')")
                 end
             | None => Ok None
             end ;;
      Ok (mkEffects upd
            (if negb (Nat.eqb (List.length fcs) 0)
             then [mkTimer 200 (map to_response fcs)] else []))
  end.

(* ------------------------------------------------------------------ *)
(** * More of [useLiveAPI]: cleanup, [setModel], event sequences *)

Definition Handler_eqb (a b : Handler) : bool :=
  match a, b with
  | HOnError, HOnError | HOnOpen, HOnOpen | HOnClose, HOnClose
  | HStopAudioStreamer, HStopAudioStreamer | HOnAudio, HOnAudio => true
  | _, _ => false
  end.

(** [client.off(kind, fn)]: the emitter drops every registration of [fn]
    for [kind]. *)
Definition client_off (k : EventKind) (h : Handler)
  (l : list (EventKind * Handler)) : list (EventKind * Handler) :=
  filter (fun kh => negb (EventKind_eqb (fst kh) k && Handler_eqb (snd kh) h)) l.

(** The cleanup of the [[client]] effect: [client.off("error", onError)
    .off("open", onOpen).off("close", onClose)
    .off("interrupted", stopAudioStreamer).off("audio", onAudio)
    .disconnect()]. *)
Definition hook_unmount (s : Hook) : Hook :=
  let l := client_off KAudio HOnAudio
             (client_off KInterrupted HStopAudioStreamer
               (client_off KClose HOnClose
                 (client_off KOpen HOnOpen
                   (client_off KError HOnError (listeners s))))) in
  add_calls [CDisconnect]
    (set_client (client_disconnect (client s)) (set_listeners l s)).

(** [setModel] from [useState]. *)
Definition hook_setModel (m : string) (s : Hook) : Hook :=
  mkHook (client s) (listeners s) m (config s) (connected s) (streamer s)
    (calls s) (console_errors s).

(** The client emitting several events in a row. *)
Definition deliver_all (es : list SessionEvent) (s : Hook) : Hook :=
  fold_left (fun s e => deliver e s) es s.

(** What one event asks of the AudioStreamer through the hook's handlers. *)
Definition streamer_effect (e : SessionEvent) : list StreamerCall :=
  match e with
  | EvAudio b => [SAddPCM16 b]
  | EvInterrupted => [SStop]
  | _ => []
  end.

(* ------------------------------------------------------------------ *)
(** * More of [ControlTray]: the recorder effect, [toggleGemini] *)

(** Listeners on the AudioRecorder: the [onData] closure of a given render
    (a new function each time the effect runs) and the state setter
    [setInVolume] (the same function on every render). *)
Inductive RecListener := RData (render : nat) | RVolume.

Definition RecListener_eqb (a b : RecListener) : bool :=
  match a, b with
  | RData n, RData m => Nat.eqb n m
  | RVolume, RVolume => true
  | _, _ => false
  end.

Record Recorder := mkRecorder {
  rec_listeners : list RecListener;
  recording : bool;
  acquisitions : nat       (* microphone acquisitions made *)
}.

(** Modelled from the spec: [AudioRecorder.start()] (lib/audio-recorder, not in
    the repository sources) acquires the microphone unless already started
    ("must not duplicate the underlying device acquisition"). *)
Definition recorder_start (r : Recorder) : Recorder :=
  if recording r then r
  else mkRecorder (rec_listeners r) true (S (acquisitions r)).

(** Modelled from the spec: [AudioRecorder.stop()] releases the device and is
    safe when never started. *)
Definition recorder_stop (r : Recorder) : Recorder :=
  mkRecorder (rec_listeners r) false (acquisitions r).

Definition recorder_on (l : RecListener) (r : Recorder) : Recorder :=
  mkRecorder (rec_listeners r ++ [l]) (recording r) (acquisitions r).

Definition recorder_off (l : RecListener) (r : Recorder) : Recorder :=
  mkRecorder (filter (fun x => negb (RecListener_eqb x l)) (rec_listeners r))
    (recording r) (acquisitions r).

(** The [[connected, client, audioRecorder]] effect at render [n]. *)
Definition recorder_effect (n : nat) (connected : bool) (r : Recorder) : Recorder :=
  if connected
  then recorder_start (recorder_on RVolume (recorder_on (RData n) r))
  else recorder_stop r.

(** Its cleanup: [audioRecorder.off("data", onData).off("volume", setInVolume)]. *)
Definition recorder_cleanup (n : nat) (r : Recorder) : Recorder :=
  recorder_off RVolume (recorder_off (RData n) r).

(** React runs the effect once per change of [connected] (render [n] for the
    [n]-th value), cleaning up the previous run first. *)
Fixpoint recorder_runs (n : nat) (prev : option nat) (cs : list bool) (r : Recorder)
  : Recorder :=
  match cs with
  | [] => r
  | c :: cs' =>
      let r1 := match prev with Some p => recorder_cleanup p r | None => r end in
      recorder_runs (S n) (Some n) cs' (recorder_effect n c r1)
  end.

(** What [webcam.start()] (hooks/use-webcam, not in the sources) gives:
    a stream, or a rejection. *)
Inductive WebcamOutcome := WebcamStream (id : nat) | WebcamFailed.

Record Tray := mkTrayState {
  tray_hook : Hook;
  activeVideoStream : option nat;
  webcam_on : bool;
  stream_changes : list (option nat);      (* onVideoStreamChange calls *)
  tray_errors : list string
}.

(** [toggleGemini]: when connected, [disconnect()], [webcam.stop()],
    [setActiveVideoStream(null)], [onVideoStreamChange(null)]; otherwise, in
    a try block, start the webcam, record its stream, then [await connect()];
    a rejection of either is caught and logged. *)
Definition toggleGemini (w : WebcamOutcome) (t : Tray) : Tray :=
  let s := tray_hook t in
  if connected s then
    mkTrayState (fst (hook_disconnect s)) None false
      (stream_changes t ++ [None]) (tray_errors t)
  else
    match w with
    | WebcamFailed =>
        mkTrayState s (activeVideoStream t) (webcam_on t) (stream_changes t)
          (tray_errors t ++ ["Failed to start webcam or connect to Gemini"])
    | WebcamStream m =>
        let '(s', r) := hook_connect s in
        let errs := match r with
                    | Ok _ => tray_errors t
                    | Throw _ => tray_errors t ++ ["Failed to start webcam or connect to Gemini"]
                    end in
        mkTrayState s' (Some m) true (stream_changes t ++ [Some m]) errs
    end.

(** Running the [[inVolume]] effect for each new input volume in turn. *)
Definition volume_effects (vs : list R) (s : TrayState) : TrayState :=
  fold_left (fun s v => volume_effect (mkTray v (document_style s))) vs s.

Fixpoint count_key (k : string) (st : list (string * R)) : nat :=
  match st with
  | [] => 0
  | (k', _) :: st' => (if String.eqb k k' then 1 else 0) + count_key k st'
  end.

(** The payload extraction in [sendVideoFrame]:
    [base64.slice(base64.indexOf(",") + 1, Infinity)]. *)
Definition extract_payload (s : string) : string :=
  js_slice_to_end s (js_indexOf s ","%char + 1)%Z.

(* ------------------------------------------------------------------ *)
(** * [App] (src/App.tsx and its variant in unnamed/part_001) *)

(** [process.env.REACT_APP_GEMINI_API_KEY]: [None] when unset. *)
Definition env_value := option string.

(** src/App.tsx: [if (typeof API_KEY !== "string") throw ...]. *)
Definition app_key_check (k : env_value) : result string :=
  match k with
  | Some key => Ok key
  | None => Throw (ConfigError "set REACT_APP_GEMINI_API_KEY in .env")
  end.

(** The App variant in unnamed/part_001: [if (!API_KEY) throw ...]. *)
Definition app_key_check_variant (k : env_value) : result string :=
  match k with
  | Some key => if String.eqb key "" then Throw (ConfigError "Missing REACT_APP_GEMINI_API_KEY in .env file")
                else Ok key
  | None => Throw (ConfigError "Missing REACT_APP_GEMINI_API_KEY in .env file")
  end.

(** The client right after [client.connect] succeeds. *)
Definition connecting_client (c : Client) (m : string) (k : LiveConnectConfig) : Client :=
  mkClient Connecting [next_hid c] (S (next_hid c))
    (frames c ++ [FrHandshake (next_hid c) m k]) (events c).

(** The render whose [onData] is registered last. *)
Definition last_render (n p : nat) (cs : list bool) : nat :=
  match cs with [] => p | _ => n + List.length cs - 1 end.

(* ================================================================== *)
(** * Properties *)

(** ** Client lemmas *)

Lemma client_disconnect_inactive (c : Client) :
  is_active (status (client_disconnect c)) = false.
Proof.
  unfold client_disconnect; destruct (is_active (status c)) eqn:E; simpl; auto.
Qed.

Lemma count_open_app (xs ys : list SessionEvent) :
  count_open (xs ++ ys) = count_open xs + count_open ys.
Proof.
  induction xs as [|e xs IH]; simpl; [reflexivity|].
  destruct e; simpl; rewrite ?IH; reflexivity.
Qed.

Lemma count_open_disconnect (c : Client) :
  count_open (events (client_disconnect c)) = count_open (events c).
Proof.
  unfold client_disconnect; destruct (is_active (status c)); simpl;
    [rewrite count_open_app; simpl; lia | reflexivity].
Qed.

Lemma client_disconnect_idem (c : Client) :
  client_disconnect (client_disconnect c) = client_disconnect c.
Proof.
  unfold client_disconnect at 1; rewrite client_disconnect_inactive; reflexivity.
Qed.

Lemma client_acks_open (hs : list nat) (c : Client) :
  status c = Open -> client_acks hs c = c.
Proof.
  intros Hst; unfold client_acks in *; induction hs as [|h hs IH]; simpl;
    [reflexivity|].
  replace (client_ack h c) with c by (unfold client_ack; rewrite Hst; reflexivity).
  exact IH.
Qed.

(** With a single outstanding handshake [h], the acknowledgments open the
    session exactly when [h] is among them. *)
Lemma client_acks_single (hs : list nat) (c : Client) (h : nat) :
  status c = Connecting -> pending c = [h] ->
  client_acks hs c =
    if existsb (Nat.eqb h) hs
    then mkClient Open [] (next_hid c) (frames c) (events c ++ [EvOpen])
    else c.
Proof.
  intros Hst Hp; induction hs as [|a hs IH]; [reflexivity|].
  change (client_acks (a :: hs) c) with (client_acks hs (client_ack a c)).
  unfold client_ack at 1; rewrite Hst, Hp; simpl.
  rewrite Nat.eqb_sym, orb_false_r.
  destruct (Nat.eqb h a); simpl; [|exact IH].
  apply client_acks_open; reflexivity.
Qed.

Lemma client_acks_count (acks : list nat) (c : Client) (h : nat) :
  status c = Connecting -> pending c = [h] ->
  count_open (events (client_acks acks c)) =
  count_open (events c) + (if existsb (Nat.eqb h) acks then 1 else 0).
Proof.
  intros Hst Hp; rewrite (client_acks_single acks c h Hst Hp).
  destruct (existsb (Nat.eqb h) acks); simpl; rewrite ?count_open_app; simpl; lia.
Qed.

(** ** Hook lemmas *)

Lemma hook_connect_ok (s : Hook) (k : LiveConnectConfig) :
  config s = Some k ->
  hook_connect s =
    (set_client (connecting_client (client_disconnect (client s)) (model s) k)
       (add_calls [CConnect (model s) (Some k)]
          (add_calls [CDisconnect] (set_client (client_disconnect (client s)) s))),
     Ok tt).
Proof.
  intros Hcfg; unfold hook_connect; simpl; rewrite Hcfg; simpl.
  unfold client_connect; rewrite client_disconnect_inactive; reflexivity.
Qed.

(** ** C1 *)

(** C1: whatever state the client is in, the hook's [connect] calls
    [client.disconnect()] and then [client.connect(model, config)]; two
    [connect] calls in a row leave one outstanding handshake, and whatever
    acknowledgments the transport then delivers, at most one Open event is
    emitted, exactly one when the live handshake is acknowledged. *)
Theorem connect_twice_single_session (s : Hook) (k : LiveConnectConfig)
  (Hcfg : config s = Some k) :
  exists s1 s2 h,
    hook_connect s = (s1, Ok tt) /\ hook_connect s1 = (s2, Ok tt) /\
    calls s2 = calls s ++ [CDisconnect; CConnect (model s) (Some k);
                           CDisconnect; CConnect (model s) (Some k)] /\
    status (client s2) = Connecting /\ pending (client s2) = [h] /\
    forall acks : list nat,
      count_open (events (client_acks acks (client s2))) =
      count_open (events (client s)) + (if existsb (Nat.eqb h) acks then 1 else 0).
Proof.
  rewrite (hook_connect_ok s k Hcfg).
  set (c1 := client_disconnect (client s)).
  eexists; eexists; exists (S (next_hid c1)).
  split; [reflexivity|].
  rewrite hook_connect_ok with (k := k) by exact Hcfg.
  split; [reflexivity|].
  split; [simpl; rewrite <- !app_assoc; reflexivity|].
  split; [reflexivity|]; split; [reflexivity|].
  intros acks.
  rewrite (client_acks_count acks _ (S (next_hid c1))) by reflexivity.
  f_equal; simpl; rewrite count_open_app; unfold c1; rewrite count_open_disconnect.
  simpl; lia.
Qed.

(** ** C3 *)

(** C3: [sendRealtimeInput] while the session is not Open leaves the client
    untouched: no frame reaches the transport and nothing is queued. *)
Theorem sendRealtimeInput_dropped_unless_open (parts : list Part) (c : Client)
  (Hnot : status c <> Open) :
  client_sendRealtimeInput parts c = c.
Proof.
  unfold client_sendRealtimeInput; destruct (status c); congruence.
Qed.

Lemma connect_twice_single_session_witness :
  config hook_init = Some empty_config /\
  exists s1 s2 h,
    hook_connect hook_init = (s1, Ok tt) /\ hook_connect s1 = (s2, Ok tt) /\
    calls s2 = calls hook_init ++
      [CDisconnect; CConnect (model hook_init) (Some empty_config);
       CDisconnect; CConnect (model hook_init) (Some empty_config)] /\
    status (client s2) = Connecting /\ pending (client s2) = [h] /\
    forall acks : list nat,
      count_open (events (client_acks acks (client s2))) =
      count_open (events (client hook_init)) +
      (if existsb (Nat.eqb h) acks then 1 else 0).
Proof.
  split; [reflexivity|].
  apply (connect_twice_single_session hook_init empty_config); reflexivity.
Defined.

Lemma sendRealtimeInput_dropped_unless_open_witness :
  status client_init <> Open /\
  client_sendRealtimeInput [mkPart "audio/pcm;rate=16000" "AAAA"] client_init
  = client_init.
Proof.
  split; [discriminate|].
  apply sendRealtimeInput_dropped_unless_open; discriminate.
Defined.

(** ** C2 *)

(** C2, as stated: right after the hook mounts, an interrupted event is
    delivered but AudioStreamer.stop() is not invoked, because the
    AudioStreamer is created only once the audio context's promise
    resolves ([audioStreamerRef.current?.stop()]). *)
Lemma interrupted_before_streamer_no_stop :
  ~ exists l, streamer (deliver EvInterrupted (hook_mount hook_init)) = Some l
              /\ In SStop l.
Proof.
  simpl; intros [l [H _]]; discriminate.
Qed.

(** C2, amended: on a freshly mounted hook, once the AudioStreamer exists an
    interrupted event calls [stop()] and an audio event forwards exactly its
    bytes to [addPCM16]; before the AudioStreamer exists both events leave
    the hook unchanged. *)
Theorem mounted_hook_routes_audio_events (s0 : Hook) (bytes : list Byte.byte)
  (Hl : listeners s0 = []) :
  let s := hook_mount s0 in
  listeners s = registered /\
  (forall l, streamer s = Some l ->
     deliver EvInterrupted s = set_streamer (Some (l ++ [SStop])) s /\
     deliver (EvAudio bytes) s = set_streamer (Some (l ++ [SAddPCM16 bytes])) s) /\
  (streamer s = None ->
     deliver EvInterrupted s = s /\ deliver (EvAudio bytes) s = s).
Proof.
  intros s.
  assert (Hreg : listeners s = registered) by (unfold s, hook_mount; simpl; rewrite Hl; reflexivity).
  split; [exact Hreg|].
  unfold deliver; rewrite Hreg; simpl.
  split.
  - intros l Hs; unfold s, hook_mount in Hs; simpl in Hs.
    unfold streamer_call; simpl; rewrite Hs; split; reflexivity.
  - intros Hs; unfold s, hook_mount in Hs; simpl in Hs.
    unfold streamer_call; simpl; rewrite Hs; split; reflexivity.
Qed.

Lemma mounted_hook_routes_audio_events_witness :
  listeners (hook_streamer_ready hook_init) = [] /\
  deliver EvInterrupted (hook_mount (hook_streamer_ready hook_init)) =
    set_streamer (Some [SStop]) (hook_mount (hook_streamer_ready hook_init)).
Proof.
  split; [reflexivity|].
  destruct (mounted_hook_routes_audio_events (hook_streamer_ready hook_init)
              [Byte.x00] eq_refl) as [_ [H _]].
  apply (H []); reflexivity.
Defined.

(** ** C5 *)

Lemma client_disconnect_frames (c : Client) :
  frames (client_disconnect c) = frames c /\ next_hid (client_disconnect c) = next_hid c.
Proof. unfold client_disconnect; destruct (is_active (status c)); split; reflexivity. Qed.

(** C5: calling the hook's [disconnect] any positive number of times, from
    any state (also one that never connected), never throws, leaves
    [connected] false and the client as after the first call: every later
    call is a no-op on the client. *)
Theorem disconnect_idempotent_never_throws (n : nat) (s : Hook) :
  exists sn,
    repeat_op (S n) hook_disconnect s = (sn, Ok tt) /\
    connected sn = false /\
    client sn = client_disconnect (client s) /\
    is_active (status (client sn)) = false.
Proof.
  revert s; induction n as [|n IH]; intros s.
  - eexists; split; [reflexivity|]; simpl.
    split; [reflexivity|]; split; [reflexivity|].
    apply client_disconnect_inactive.
  - destruct (IH (fst (hook_disconnect s))) as [sn [Hrep [Hc [Hcl Hin]]]].
    exists sn; split; [exact Hrep|]; split; [exact Hc|]; split; [|exact Hin].
    rewrite Hcl; simpl; apply client_disconnect_idem.
Qed.

(** ** C6 *)

(** C6: the hook's [connect] throws "config has not been set" exactly when
    the stored config is absent, and then touches neither the client nor
    the hook; the hook starts with the object [{}] and [setConfig] always
    stores an object, so on the typed paths the rejection does not occur. *)
Theorem connect_rejects_iff_config_absent (s : Hook) :
  (snd (hook_connect s) = Throw (ConfigError "config has not been set")
     <-> config s = None) /\
  (config s = None -> fst (hook_connect s) = s) /\
  config hook_init = Some empty_config /\
  (forall k s', config (hook_setConfig k s') <> None).
Proof.
  split; [|split; [|split]].
  - destruct (config s) as [k|] eqn:E.
    + rewrite (hook_connect_ok s k E); simpl; split; discriminate.
    + unfold hook_connect; rewrite E; simpl; split; reflexivity.
  - intros E; unfold hook_connect; rewrite E; reflexivity.
  - reflexivity.
  - intros k s'; simpl; discriminate.
Qed.

(** ** C7 *)

(** C7: [setConfig] only replaces the stored config: the client, its frames
    and the hook's calls on it are untouched; the next [connect] sends the
    new config in its handshake. *)
Theorem setConfig_no_transport (k : LiveConnectConfig) (s : Hook) :
  client (hook_setConfig k s) = client s /\
  calls (hook_setConfig k s) = calls s /\
  connected (hook_setConfig k s) = connected s /\
  config (hook_setConfig k s) = Some k /\
  exists s',
    hook_connect (hook_setConfig k s) = (s', Ok tt) /\
    calls s' = calls s ++ [CDisconnect; CConnect (model s) (Some k)] /\
    frames (client s') =
      frames (client s) ++ [FrHandshake (next_hid (client s)) (model s) k].
Proof.
  split; [reflexivity|]; split; [reflexivity|]; split; [reflexivity|].
  split; [reflexivity|].
  rewrite (hook_connect_ok (hook_setConfig k s) k eq_refl).
  eexists; split; [reflexivity|]; simpl.
  destruct (client_disconnect_frames (client s)) as [Hf Hn].
  split; [rewrite <- app_assoc; reflexivity|].
  unfold connecting_client; simpl; rewrite Hf, Hn; reflexivity.
Qed.

(** ** C9 *)

(** C9: [useLiveAPIContext] throws exactly outside a provider (context
    [undefined]) and otherwise returns the provided value unchanged. *)
Theorem useLiveAPIContext_spec (ctx : option UseLiveAPIResults) :
  ((exists msg, useLiveAPIContext ctx = Throw (ContextError msg)) <-> ctx = None) /\
  (forall v : UseLiveAPIResults, useLiveAPIContext (Some v) = Ok v).
Proof.
  split; [|reflexivity].
  destruct ctx as [v|]; simpl; split.
  - intros [msg H]; discriminate.
  - discriminate.
  - intros _; reflexivity.
  - intros _; eexists; reflexivity.
Qed.

(** ** C8 *)

Lemma substring_0_length (b : string) : substring 0 (String.length b) b = b.
Proof. induction b as [|a b IH]; simpl; [reflexivity|]; rewrite IH; reflexivity. Qed.

(** The part after the first comma of the JPEG data URL is the base64
    payload, whatever it contains. *)
Lemma slice_after_comma (b : string) :
  js_slice_to_end (toDataURL_jpeg b) (js_indexOf (toDataURL_jpeg b) ","%char + 1)%Z = b.
Proof.
  unfold js_slice_to_end, js_indexOf.
  replace (index_of_char ","%char (toDataURL_jpeg b)) with (Some 22) by reflexivity.
  replace (String.length (toDataURL_jpeg b)) with (23 + String.length b)%nat by reflexivity.
  replace (Z.of_nat 22 + 1 <? 0)%Z with false by reflexivity.
  rewrite Z.min_l by lia.
  simpl; rewrite Nat.sub_0_r; apply substring_0_length.
Qed.

(** C8: every part the application passes to [sendRealtimeInput] is either
    the microphone chunk, with mimeType "audio/pcm;rate=16000" and the
    recorder's base64 string as data, or a video snapshot, with mimeType
    "image/jpeg" and the canvas's base64 JPEG payload as data. *)
Theorem realtime_parts_mime (i : AppInput) (parts : list Part) (p : Part)
  (Hcall : In parts (realtime_calls i)) (Hp : In p parts) :
  (mimeType p = "audio/pcm;rate=16000" /\ i = MicData (data p)) \/
  (mimeType p = "image/jpeg" /\ exists t, i = VideoTick t /\ data p = jpeg_base64 t).
Proof.
  destruct i as [b|t]; simpl in Hcall.
  - destruct Hcall as [<-|[]]; destruct Hp as [<-|[]].
    left; split; reflexivity.
  - unfold sendVideoFrame in Hcall.
    destruct (video t) as [[w h]|]; [|destruct Hcall].
    destruct (has_canvas t); [|destruct Hcall].
    destruct (Nat.ltb 0 (canvas_dim w + canvas_dim h)); simpl in Hcall; [|destruct Hcall].
    destruct Hcall as [<-|[]]; destruct Hp as [<-|[]].
    right; split; [reflexivity|].
    exists t; split; [reflexivity|]; simpl.
    apply slice_after_comma.
Qed.

Lemma realtime_parts_mime_witness :
  In (onData "AAAA") (realtime_calls (MicData "AAAA")) /\
  In (mkPart "audio/pcm;rate=16000" "AAAA") (onData "AAAA") /\
  ((mimeType (mkPart "audio/pcm;rate=16000" "AAAA") = "audio/pcm;rate=16000" /\
    MicData "AAAA" = MicData (data (mkPart "audio/pcm;rate=16000" "AAAA"))) \/
   (mimeType (mkPart "audio/pcm;rate=16000" "AAAA") = "image/jpeg" /\
    exists t, MicData "AAAA" = VideoTick t /\
              data (mkPart "audio/pcm;rate=16000" "AAAA") = jpeg_base64 t)).
Proof.
  split; [simpl; left; reflexivity|].
  split; [simpl; left; reflexivity|].
  apply (realtime_parts_mime (MicData "AAAA") (onData "AAAA")); simpl; left; reflexivity.
Defined.

(** ** C10 *)

Lemma style_get_set_same (k : string) (v : R) (st : list (string * R)) :
  style_get k (style_set k v st) = Some v.
Proof.
  induction st as [|[k' v'] st IH]; simpl.
  - rewrite String.eqb_refl; reflexivity.
  - destruct (String.eqb k k') eqn:E; simpl.
    + rewrite String.eqb_refl; reflexivity.
    + rewrite E; exact IH.
Qed.

Lemma style_get_set_other (k j : string) (v : R) (st : list (string * R)) :
  String.eqb j k = false -> style_get j (style_set k v st) = style_get j st.
Proof.
  intros Hjk; induction st as [|[k' v'] st IH]; simpl.
  - rewrite Hjk; reflexivity.
  - destruct (String.eqb k k') eqn:E; simpl.
    + apply String.eqb_eq in E; subst k'; rewrite Hjk; reflexivity.
    + destruct (String.eqb j k'); [reflexivity|exact IH].
Qed.

(** C10: for every input volume [v], the effect writes
    [max(5, min(v * 200, 8))] px, a value in [5, 8], to the document-wide
    "--volume" style property; ControlTray's own state and the document's
    other properties are left as they were. *)
Theorem volume_indicator_clamped (s : TrayState) :
  style_get "--volume" (document_style (volume_effect s)) =
    Some (Rmax 5 (Rmin (inVolume s * 200) 8)) /\
  (5 <= Rmax 5 (Rmin (inVolume s * 200) 8) <= 8)%R /\
  inVolume (volume_effect s) = inVolume s /\
  (forall j, String.eqb j "--volume" = false ->
     style_get j (document_style (volume_effect s)) = style_get j (document_style s)).
Proof.
  split; [apply style_get_set_same|].
  split; [|split; [reflexivity|intros j Hj; apply style_get_set_other, Hj]].
  split.
  - apply Rbasic_fun.Rmax_l.
  - apply Rmax_lub; [lra|apply Rbasic_fun.Rmin_r].
Qed.

(** ** C4 *)

(** When the [render_altair] call (if any) carries [args], a non-empty list
    of function calls yields one timer of 200 ms whose response frame has one
    entry per call, with that call's id and name and the output
    [{ success: true }]. *)
Lemma onToolCall_one_response_with_args (fcs : list FunctionCall) :
  fcs <> [] ->
  (forall fc, find (name_is declaration_name) fcs = Some fc -> fc_args fc <> None) ->
  exists upd,
    onToolCall (mkToolCall (Some fcs)) = Ok (mkEffects upd [mkTimer 200 (map to_response fcs)]) /\
    List.length (map to_response fcs) = List.length fcs /\
    Forall2 (fun fc r => fr_id r = fc_id fc /\ fr_name r = fc_name fc /\
                         fr_output r = mkOutput true) fcs (map to_response fcs).
Proof.
  intros Hne Hargs.
  assert (Hlen : Nat.eqb (List.length fcs) 0 = false)
    by (destruct fcs; [congruence|reflexivity]).
  assert (HF : Forall2 (fun fc r => fr_id r = fc_id fc /\ fr_name r = fc_name fc /\
                                    fr_output r = mkOutput true) fcs (map to_response fcs))
    by (clear; induction fcs; simpl; constructor; auto).
  unfold onToolCall; simpl.
  destruct (find (name_is declaration_name) fcs) as [fc|] eqn:Ef.
  - destruct (fc_args fc) as [args|] eqn:Ea; [|exfalso; exact (Hargs fc eq_refl Ea)].
    eexists; simpl; rewrite Hlen; simpl.
    split; [reflexivity|split; [apply length_map|exact HF]].
  - eexists; simpl; rewrite Hlen; simpl.
    split; [reflexivity|split; [apply length_map|exact HF]].
Qed.

(** C4 (failing input): a tool call whose single function call is
    [render_altair] without [args] makes [onToolCall] throw a TypeError on
    [(fc.args as any).json_graph] before the response timer is started, so no
    tool-response frame is ever sent for it. *)
Theorem onToolCall_render_altair_without_args_throws :
  onToolCall (mkToolCall (Some [mkFunctionCall (Some "call-1") (Some "render_altair") None]))
  = Throw (TypeError "Cannot read properties of undefined (reading 'json_graph')").
Proof. reflexivity. Qed.

(* ================================================================== *)
(** * Further properties of the code *)

(** ** [useLiveAPI]: effects, cleanup, handlers *)

(** Mount, cleanup, mount again (what a re-run of the [[client]] effect
    does): the cleanup removes every handler the effect added and disconnects
    the client, and the second mount leaves exactly one registration of each
    handler, not two. *)
Theorem hook_cleanup_then_remount (s : Hook) (Hno : listeners s = []) :
  listeners (hook_unmount (hook_mount s)) = [] /\
  client (hook_unmount (hook_mount s)) = client_disconnect (client s) /\
  listeners (hook_mount (hook_unmount (hook_mount s))) = registered.
Proof.
  unfold hook_unmount, hook_mount; simpl; rewrite Hno; simpl.
  repeat split; reflexivity.
Qed.

Lemma hook_cleanup_then_remount_witness :
  listeners hook_init = [] /\
  listeners (hook_unmount (hook_mount hook_init)) = [] /\
  client (hook_unmount (hook_mount hook_init)) = client_disconnect (client hook_init) /\
  listeners (hook_mount (hook_unmount (hook_mount hook_init))) = registered.
Proof. split; [reflexivity|]. apply hook_cleanup_then_remount; reflexivity. Defined.

(** After the cleanup, no event the client emits reaches the hook. *)
Theorem events_ignored_after_unmount (s : Hook) (es : list SessionEvent)
  (Hno : listeners s = []) :
  deliver_all es (hook_unmount (hook_mount s)) = hook_unmount (hook_mount s).
Proof.
  set (u := hook_unmount (hook_mount s)).
  assert (Hu : listeners u = []) by (apply hook_cleanup_then_remount; exact Hno).
  clearbody u; unfold deliver_all.
  induction es as [|e es IH]; simpl; [reflexivity|].
  replace (deliver e u) with u by (unfold deliver; rewrite Hu; reflexivity).
  exact IH.
Qed.

Lemma events_ignored_after_unmount_witness :
  listeners hook_init = [] /\
  deliver_all [EvOpen; EvAudio [Byte.x01]] (hook_unmount (hook_mount hook_init))
  = hook_unmount (hook_mount hook_init).
Proof. split; [reflexivity|]. apply events_ignored_after_unmount; reflexivity. Defined.

Lemma deliver_registered (e : SessionEvent) (s : Hook) :
  listeners s = registered ->
  deliver e s =
    match e with
    | EvOpen => set_connected true s
    | EvClose => set_connected false s
    | EvError _ => add_console_error "error" s
    | EvAudio b => streamer_call (SAddPCM16 b) s
    | EvInterrupted => streamer_call SStop s
    end.
Proof. intros H; unfold deliver; rewrite H; destruct e; reflexivity. Qed.

(** On a mounted hook, Open sets [connected], Close clears it and Error only
    logs to the console. *)
Theorem connection_events_drive_connected (s : Hook) (d : string)
  (Hl : listeners s = registered) :
  connected (deliver EvOpen s) = true /\
  connected (deliver EvClose s) = false /\
  deliver (EvError d) s = add_console_error "error" s.
Proof.
  rewrite !deliver_registered by exact Hl.
  repeat split; reflexivity.
Qed.

Lemma connection_events_drive_connected_witness :
  listeners (hook_mount hook_init) = registered /\
  connected (deliver EvOpen (hook_mount hook_init)) = true /\
  connected (deliver EvClose (hook_mount hook_init)) = false /\
  deliver (EvError "x") (hook_mount hook_init) = add_console_error "error" (hook_mount hook_init).
Proof. split; [reflexivity|]. apply connection_events_drive_connected; reflexivity. Defined.

Lemma listeners_deliver (e : SessionEvent) (s : Hook) :
  listeners s = registered -> listeners (deliver e s) = registered.
Proof.
  intros H; rewrite deliver_registered by exact H.
  destruct e; simpl; try exact H; unfold streamer_call; destruct (streamer s); exact H.
Qed.

(** On a mounted hook whose AudioStreamer exists, any sequence of client
    events reaches the AudioStreamer as the sequence of its audio payloads
    and interruptions, in arrival order; events of other kinds add nothing. *)
Theorem audio_events_in_order (es : list SessionEvent) (s : Hook)
  (l : list StreamerCall) (Hl : listeners s = registered) (Hs : streamer s = Some l) :
  streamer (deliver_all es s) = Some (l ++ flat_map streamer_effect es) /\
  listeners (deliver_all es s) = registered.
Proof.
  unfold deliver_all; revert s l Hl Hs.
  induction es as [|e es IH]; intros s l Hl Hs; simpl.
  - rewrite app_nil_r; split; assumption.
  - assert (Hs' : streamer (deliver e s) = Some (l ++ streamer_effect e)).
    { rewrite deliver_registered by exact Hl.
      destruct e; simpl; rewrite ?app_nil_r; try exact Hs;
        unfold streamer_call; rewrite Hs; reflexivity. }
    destruct (IH (deliver e s) (l ++ streamer_effect e) (listeners_deliver e s Hl) Hs')
      as [H1 H2].
    rewrite <- app_assoc in H1; split; assumption.
Qed.

Lemma audio_events_in_order_witness :
  listeners (hook_streamer_ready (hook_mount hook_init)) = registered /\
  streamer (hook_streamer_ready (hook_mount hook_init)) = Some [] /\
  streamer (deliver_all [EvAudio [Byte.x01]; EvOpen; EvInterrupted; EvAudio [Byte.x02]]
              (hook_streamer_ready (hook_mount hook_init)))
  = Some ([] ++ [SAddPCM16 [Byte.x01]; SStop; SAddPCM16 [Byte.x02]]).
Proof.
  split; [reflexivity|]; split; [reflexivity|].
  apply (audio_events_in_order
           [EvAudio [Byte.x01]; EvOpen; EvInterrupted; EvAudio [Byte.x02]]
           (hook_streamer_ready (hook_mount hook_init)) []); reflexivity.
Defined.

(** [setModel] makes no client call; the next [connect] hands the new model
    to the client and puts it in the handshake. *)
Theorem setModel_then_connect (m : string) (k : LiveConnectConfig) (s : Hook)
  (Hcfg : config s = Some k) :
  client (hook_setModel m s) = client s /\
  exists s',
    hook_connect (hook_setModel m s) = (s', Ok tt) /\
    calls s' = calls s ++ [CDisconnect; CConnect m (Some k)] /\
    frames (client s') = frames (client s) ++ [FrHandshake (next_hid (client s)) m k].
Proof.
  split; [reflexivity|].
  rewrite (hook_connect_ok (hook_setModel m s) k Hcfg).
  eexists; split; [reflexivity|]; simpl.
  destruct (client_disconnect_frames (client s)) as [Hf Hn].
  split; [rewrite <- app_assoc; reflexivity|].
  unfold connecting_client; simpl; rewrite Hf, Hn; reflexivity.
Qed.

Lemma setModel_then_connect_witness :
  config hook_init = Some empty_config /\
  client (hook_setModel "models/m" hook_init) = client hook_init /\
  exists s',
    hook_connect (hook_setModel "models/m" hook_init) = (s', Ok tt) /\
    calls s' = calls hook_init ++ [CDisconnect; CConnect "models/m" (Some empty_config)] /\
    frames (client s') = frames (client hook_init) ++
      [FrHandshake (next_hid (client hook_init)) "models/m" empty_config].
Proof. split; [reflexivity|]. apply setModel_then_connect; reflexivity. Defined.

(** ** [ControlTray]: recorder effect, [toggleGemini], frame capture *)

Lemma recorder_cleanup_effect (p n : nat) (c c' : bool) (r : Recorder) :
  rec_listeners r = (if c then [RData p; RVolume] else []) ->
  rec_listeners (recorder_effect n c' (recorder_cleanup p r)) =
    (if c' then [RData n; RVolume] else []) /\
  recording (recorder_effect n c' (recorder_cleanup p r)) = c'.
Proof.
  intros Hr.
  assert (Hc : rec_listeners (recorder_cleanup p r) = []).
  { unfold recorder_cleanup, recorder_off; simpl; rewrite Hr.
    destruct c; simpl; [rewrite Nat.eqb_refl|]; reflexivity. }
  set (rc := recorder_cleanup p r) in *; clearbody rc.
  destruct rc as [ls rec acq]; simpl in Hc; subst ls.
  unfold recorder_effect; destruct c'.
  - unfold recorder_start, recorder_on; simpl; destruct rec; simpl; split; reflexivity.
  - unfold recorder_stop; simpl; split; reflexivity.
Qed.

Lemma last_default_irrel {A} (l : list A) (d d' : A) :
  l <> [] -> last l d = last l d'.
Proof.
  intros Hne; induction l as [|a l IH]; [congruence|].
  destruct l as [|b l]; [reflexivity|].
  apply IH; discriminate.
Qed.

Lemma recorder_runs_inv (cs : list bool) (n p : nat) (c : bool) (r : Recorder) :
  rec_listeners r = (if c then [RData p; RVolume] else []) ->
  recording r = c ->
  rec_listeners (recorder_runs n (Some p) cs r) =
    (if last cs c then [RData (last_render n p cs); RVolume] else []) /\
  recording (recorder_runs n (Some p) cs r) = last cs c.
Proof.
  revert n p c r; induction cs as [|c' cs IH]; intros n p c r Hr Hrec.
  - simpl; split; assumption.
  - simpl recorder_runs.
    destruct (recorder_cleanup_effect p n c c' r Hr) as [H1 H2].
    destruct (IH (S n) n c' _ H1 H2) as [IH1 IH2].
    assert (Hlast : last (c' :: cs) c = last cs c')
      by (destruct cs as [|b cs]; [reflexivity|change (last (b :: cs) c = last (b :: cs) c');
                                    apply last_default_irrel; discriminate]).
    assert (Hidx : last_render n p (c' :: cs) = last_render (S n) n cs)
      by (destruct cs; unfold last_render; cbn [List.length]; lia).
    rewrite Hlast, Hidx; split; assumption.
Qed.

(** Over any non-empty sequence of values of [connected] (one effect run per
    value, each cleaned up before the next), the recorder ends with exactly
    the [onData] of the latest run and [setInVolume] as listeners when the
    last value is [true], and with no listener at all when it is [false];
    it is recording exactly when the last value is [true].  Listeners never
    pile up across re-renders. *)
Theorem recorder_listeners_track_connected (cs : list bool) (r : Recorder)
  (Hr : rec_listeners r = []) (Hne : cs <> []) :
  rec_listeners (recorder_runs 0 None cs r) =
    (if last cs false then [RData (List.length cs - 1); RVolume] else []) /\
  recording (recorder_runs 0 None cs r) = last cs false.
Proof.
  destruct cs as [|c cs]; [congruence|].
  simpl recorder_runs.
  assert (H1 : rec_listeners (recorder_effect 0 c r) = (if c then [RData 0; RVolume] else [])
               /\ recording (recorder_effect 0 c r) = c).
  { destruct r as [ls rec acq]; simpl in Hr; subst ls.
    unfold recorder_effect; destruct c.
    - unfold recorder_start, recorder_on; simpl; destruct rec; simpl; split; reflexivity.
    - unfold recorder_stop; simpl; split; reflexivity. }
  destruct H1 as [H1 H2].
  destruct (recorder_runs_inv cs 1 0 c _ H1 H2) as [R1 R2].
  assert (Hlast : last (c :: cs) false = last cs c)
    by (destruct cs as [|b cs]; [reflexivity|change (last (b :: cs) false = last (b :: cs) c);
                                  apply last_default_irrel; discriminate]).
  assert (Hidx : last_render 1 0 cs = List.length (c :: cs) - 1)
    by (destruct cs; unfold last_render; cbn [List.length]; lia).
  rewrite Hlast, <- Hidx; split; assumption.
Qed.

Lemma recorder_listeners_track_connected_witness :
  rec_listeners (mkRecorder [] false 0) = [] /\ [false; true; true] <> [] /\
  rec_listeners (recorder_runs 0 None [false; true; true] (mkRecorder [] false 0)) =
    (if last [false; true; true] false
     then [RData (List.length [false; true; true] - 1); RVolume] else []) /\
  recording (recorder_runs 0 None [false; true; true] (mkRecorder [] false 0)) =
    last [false; true; true] false.
Proof.
  split; [reflexivity|]; split; [discriminate|].
  apply recorder_listeners_track_connected; [reflexivity|discriminate].
Defined.

(** [toggleGemini] while connected: disconnects (one [client.disconnect()]
    call, [connected] false), never connects, stops the webcam and reports
    a null stream, whatever the webcam would do. *)
Theorem toggleGemini_when_connected (w : WebcamOutcome) (t : Tray)
  (Hc : connected (tray_hook t) = true) :
  connected (tray_hook (toggleGemini w t)) = false /\
  calls (tray_hook (toggleGemini w t)) = calls (tray_hook t) ++ [CDisconnect] /\
  client (tray_hook (toggleGemini w t)) = client_disconnect (client (tray_hook t)) /\
  activeVideoStream (toggleGemini w t) = None /\
  webcam_on (toggleGemini w t) = false /\
  stream_changes (toggleGemini w t) = stream_changes t ++ [None].
Proof.
  unfold toggleGemini; rewrite Hc; simpl.
  repeat split; reflexivity.
Qed.

Lemma toggleGemini_when_connected_witness :
  let t := mkTrayState (set_connected true hook_init) None true [] [] in
  connected (tray_hook t) = true /\
  connected (tray_hook (toggleGemini WebcamFailed t)) = false /\
  calls (tray_hook (toggleGemini WebcamFailed t)) = calls (tray_hook t) ++ [CDisconnect] /\
  client (tray_hook (toggleGemini WebcamFailed t)) = client_disconnect (client (tray_hook t)) /\
  activeVideoStream (toggleGemini WebcamFailed t) = None /\
  webcam_on (toggleGemini WebcamFailed t) = false /\
  stream_changes (toggleGemini WebcamFailed t) = stream_changes t ++ [None].
Proof.
  intros t; split; [reflexivity|].
  apply toggleGemini_when_connected; reflexivity.
Defined.



Lemma canvas_nonempty (w h : nat) :
  Nat.ltb 0 (canvas_dim w + canvas_dim h) = (Nat.leb 4 w || Nat.leb 4 h).
Proof.
  unfold canvas_dim.
  assert (Hw : (4 <= w -> 1 <= w / 4) /\ (w < 4 -> w / 4 = 0)).
  { split; intros; [apply Nat.div_le_lower_bound; lia | apply Nat.div_small; lia]. }
  assert (Hh : (4 <= h -> 1 <= h / 4) /\ (h < 4 -> h / 4 = 0)).
  { split; intros; [apply Nat.div_le_lower_bound; lia | apply Nat.div_small; lia]. }
  destruct (Nat.leb_spec 4 w) as [Lw|Lw];
    [pose proof (proj1 Hw Lw)|pose proof (proj2 Hw Lw)].
  all: destruct (Nat.leb_spec 4 h) as [Lh|Lh];
    [pose proof (proj1 Hh Lh)|pose proof (proj2 Hh Lh)]; cbn [orb].
  all: match goal with |- _ = true => apply Nat.ltb_lt | |- _ = false => apply Nat.ltb_ge end.
  all: lia.
Qed.

(** One capture of [sendVideoFrame]: a frame is sent exactly when both the
    video and the canvas elements exist and the quarter-size canvas is not
    0x0 (video at least 4 pixels wide or high); the next capture is
    scheduled exactly when both elements exist and the tray is connected. *)
Theorem sendVideoFrame_conditions (t : FrameTick) :
  List.length (fst (sendVideoFrame t)) =
    (match video t with
     | Some (w, h) => if has_canvas t && (Nat.leb 4 w || Nat.leb 4 h) then 1 else 0
     | None => 0
     end) /\
  snd (sendVideoFrame t) =
    (match video t with Some _ => has_canvas t && tick_connected t | None => false end).
Proof.
  unfold sendVideoFrame.
  destruct (video t) as [[w h]|]; [|split; reflexivity].
  destruct (has_canvas t); [|split; reflexivity].
  rewrite canvas_nonempty.
  destruct (Nat.leb 4 w || Nat.leb 4 h); split; reflexivity.
Qed.

Lemma index_of_char_app (c : ascii) (p r : string) :
  index_of_char c p = None -> index_of_char c (p ++ String c r) = Some (String.length p).
Proof.
  induction p as [|a p IH]; simpl; intros H.
  - rewrite Ascii.eqb_refl; reflexivity.
  - destruct (Ascii.eqb a c); [discriminate|].
    destruct (index_of_char c p); [discriminate|].
    rewrite IH; reflexivity.
Qed.

Lemma length_app_string (p r : string) :
  String.length (p ++ r) = String.length p + String.length r.
Proof. induction p; simpl; congruence. Qed.

Lemma substring_after_prefix (p r : string) (c : ascii) :
  substring (String.length p + 1) (String.length r) (p ++ String c r) = r.
Proof.
  induction p as [|a p IH]; simpl; [apply substring_0_length|exact IH].
Qed.

(** The payload extraction of [sendVideoFrame]: for a string whose first
    comma follows a comma-free prefix, the result is what comes after that
    comma (even if it contains commas); a string without a comma is kept
    whole ([indexOf] gives -1, so the slice starts at 0). *)
Theorem extract_payload_spec (p r : string)
  (Hp : index_of_char ","%char p = None) :
  extract_payload (p ++ String ","%char r) = r /\ extract_payload p = p.
Proof.
  unfold extract_payload, js_slice_to_end, js_indexOf; split.
  - rewrite (index_of_char_app _ p r Hp), length_app_string; simpl String.length.
    replace (Z.of_nat (String.length p) + 1 <? 0)%Z with false by (symmetry; apply Z.ltb_ge; lia).
    rewrite Z.min_l by lia.
    replace (Z.to_nat (Z.of_nat (String.length p) + 1)) with (String.length p + 1) by lia.
    replace (String.length p + S (String.length r) - (String.length p + 1)) with (String.length r) by lia.
    apply substring_after_prefix.
  - rewrite Hp; simpl.
    rewrite Z.min_l by lia; simpl.
    rewrite Nat.sub_0_r; apply substring_0_length.
Qed.

Lemma extract_payload_spec_witness :
  index_of_char ","%char "data:image/jpeg;base64" = None /\
  extract_payload ("data:image/jpeg;base64" ++ String ","%char "AB,C") = "AB,C" /\
  extract_payload "data:image/jpeg;base64" = "data:image/jpeg;base64".
Proof. split; [reflexivity|]. apply extract_payload_spec; reflexivity. Defined.

(** ** ControlTray: the volume indicator *)

Lemma count_key_set (k : string) (v : R) (st : list (string * R)) :
  count_key k st <= 1 -> count_key k (style_set k v st) = 1.
Proof.
  induction st as [|[k' v'] st IH]; simpl; intros H.
  - rewrite String.eqb_refl; reflexivity.
  - destruct (String.eqb k k') eqn:E; simpl.
    + rewrite String.eqb_refl; simpl; lia.
    + rewrite E; simpl; apply IH; lia.
Qed.

(** However many times the input volume changes, the document holds a
    single "--volume" property, and its value is computed from the latest
    volume; ControlTray's [inVolume] is that latest volume. *)
Theorem volume_effects_keep_latest (vs : list R) (s : TrayState)
  (Hne : vs <> []) (H1 : count_key "--volume" (document_style s) <= 1) :
  style_get "--volume" (document_style (volume_effects vs s)) =
    Some (volume_px (last vs 0%R)) /\
  count_key "--volume" (document_style (volume_effects vs s)) = 1 /\
  inVolume (volume_effects vs s) = last vs 0%R.
Proof.
  unfold volume_effects; revert s H1.
  induction vs as [|v vs IH]; intros s H1; [congruence|].
  simpl fold_left.
  destruct vs as [|v' vs].
  - simpl; split; [apply style_get_set_same|split; [apply count_key_set; exact H1|reflexivity]].
  - change (last (v :: v' :: vs) 0%R) with (last (v' :: vs) 0%R).
    apply IH; [discriminate|].
    simpl; rewrite count_key_set by exact H1; lia.
Qed.

Lemma volume_effects_keep_latest_witness :
  [0%R; 1%R] <> [] /\ count_key "--volume" (document_style (mkTray 0 [])) <= 1 /\
  style_get "--volume" (document_style (volume_effects [0%R; 1%R] (mkTray 0 []))) =
    Some (volume_px (last [0%R; 1%R] 0%R)) /\
  count_key "--volume" (document_style (volume_effects [0%R; 1%R] (mkTray 0 []))) = 1 /\
  inVolume (volume_effects [0%R; 1%R] (mkTray 0 [])) = last [0%R; 1%R] 0%R.
Proof.
  split; [discriminate|]; split; [simpl; lia|].
  apply volume_effects_keep_latest; [discriminate|simpl; lia].
Defined.

(** The indicator grows with the input volume, is 5 px up to volume
    0.025 and 8 px from volume 0.04 on. *)
Theorem volume_px_monotone_saturating (v1 v2 : R) (Hle : (v1 <= v2)%R) :
  (volume_px v1 <= volume_px v2)%R /\
  (v1 * 200 <= 5 -> volume_px v1 = 5)%R /\
  (8 <= v2 * 200 -> volume_px v2 = 8)%R.
Proof.
  unfold volume_px, Rmax, Rmin.
  repeat split; intros;
    repeat match goal with
           | |- context [Rle_dec ?a ?b] => destruct (Rle_dec a b)
           | H : context [Rle_dec ?a ?b] |- _ => destruct (Rle_dec a b)
           end;
    lra.
Qed.

Lemma volume_px_monotone_saturating_witness :
  (0 <= 1)%R /\ (volume_px 0 <= volume_px 1)%R /\
  (0 * 200 <= 5 -> volume_px 0 = 5)%R /\ (8 <= 1 * 200 -> volume_px 1 = 8)%R.
Proof. split; [lra|]. apply volume_px_monotone_saturating; lra. Defined.

(** ** [Altair]: the chart string and the responses *)


Lemma find_none {A} (f : A -> bool) (l : list A) :
  forallb (fun y => negb (f y)) l = true -> find f l = None.
Proof.
  induction l as [|y l IH]; simpl; intros H; [reflexivity|].
  apply andb_prop in H as [Hy H].
  destruct (f y); [discriminate|]; apply IH; exact H.
Qed.



(** A tool call without any [render_altair] call leaves the chart alone; it
    is answered by one 200 ms timer when its list is non-empty, and causes
    nothing at all when the list is empty or absent. *)
Theorem onToolCall_without_render_altair (fcs : list FunctionCall)
  (Hnone : forallb (fun f => negb (name_is declaration_name f)) fcs = true) :
  onToolCall (mkToolCall (Some fcs)) =
    Ok (mkEffects None (match fcs with [] => [] | _ => [mkTimer 200 (map to_response fcs)] end)) /\
  onToolCall (mkToolCall None) = Ok (mkEffects None []).
Proof.
  split; [|reflexivity].
  unfold onToolCall; simpl; rewrite (find_none _ fcs Hnone); simpl.
  destruct fcs; reflexivity.
Qed.

Lemma onToolCall_without_render_altair_witness :
  forallb (fun f => negb (name_is declaration_name f))
    [mkFunctionCall (Some "1") (Some "lookup") None] = true /\
  onToolCall (mkToolCall (Some [mkFunctionCall (Some "1") (Some "lookup") None])) =
    Ok (mkEffects None [mkTimer 200 (map to_response [mkFunctionCall (Some "1") (Some "lookup") None])]) /\
  onToolCall (mkToolCall None) = Ok (mkEffects None []).
Proof.
  split; [reflexivity|].
  apply (onToolCall_without_render_altair [mkFunctionCall (Some "1") (Some "lookup") None]);
    reflexivity.
Defined.

Lemma onToolCall_one_response_with_args_witness :
  let fcs := [mkFunctionCall (Some "1") (Some "render_altair") (Some []);
              mkFunctionCall (Some "2") (Some "lookup") None] in
  fcs <> [] /\
  (forall fc, find (name_is declaration_name) fcs = Some fc -> fc_args fc <> None) /\
  exists upd,
    onToolCall (mkToolCall (Some fcs)) = Ok (mkEffects upd [mkTimer 200 (map to_response fcs)]) /\
    List.length (map to_response fcs) = List.length fcs /\
    Forall2 (fun fc r => fr_id r = fc_id fc /\ fr_name r = fc_name fc /\
                         fr_output r = mkOutput true) fcs (map to_response fcs).
Proof.
  intros fcs.
  assert (Hf : forall fc, find (name_is declaration_name) fcs = Some fc -> fc_args fc <> None)
    by (simpl; intros fc H; injection H as <-; discriminate).
  split; [discriminate|]; split; [exact Hf|].
  apply onToolCall_one_response_with_args; [discriminate|exact Hf].
Defined.

(** ** [App]: the API key check *)

(** src/App.tsx rejects only an unset key (an empty key passes); the variant
    in unnamed/part_001 also rejects the empty key; whatever that variant
    accepts, src/App.tsx accepts with the same key. *)
Theorem app_key_checks (k : env_value) :
  ((exists e, app_key_check k = Throw e) <-> k = None) /\
  ((exists e, app_key_check_variant k = Throw e) <-> k = None \/ k = Some "") /\
  (forall key, app_key_check_variant k = Ok key -> app_key_check k = Ok key).
Proof.
  destruct k as [key|]; simpl.
  - destruct (String.eqb key "") eqn:E.
    + apply String.eqb_eq in E; subst key.
      split; [split; [intros [e H]; discriminate | intros H; discriminate]|].
      split; [split; [intros _; right; reflexivity | intros _; eexists; reflexivity]|].
      intros key' H; discriminate.
    + apply String.eqb_neq in E.
      split; [split; [intros [e H]; discriminate | discriminate]|].
      split; [split; [intros [e H]; discriminate
                     | intros [H|H]; [discriminate|injection H; congruence]]|].
      intros key' H; exact H.
  - split; [split; [intros _; reflexivity | intros _; eexists; reflexivity]|].
    split; [split; [intros _; left; reflexivity | intros _; eexists; reflexivity]|].
    intros key H; discriminate.
Qed.
